(** * Face-recognition attendance: the capture loop of [app.py]

    A shallow embedding of the recognition-event controller of
    [src/app.py]: the gate [can_mark_attendance], the store write
    [update_attendance] and one iteration of the [while True] loop of
    [main] (called a tick below), followed by the properties of the
    specification that concern them.

    Python values are modelled as follows.
    - A Firebase record (a [dict] with string keys) is a [gmap string value];
      the values the repository stores are integers and strings.
    - [datetime] objects are integers counting microseconds from a fixed
      epoch.  [(a - b).total_seconds() > c] for an integer [c] holds exactly
      when the microsecond difference exceeds [c * 10^6], so the float
      returned by [total_seconds] does not appear.
    - A face distance (a finite float) is a rational; only the order of the
      distances is used by the code.
    - Exceptions that the loop does not catch end the run: they are the
      [Raised] outcome.  The record store and the sequence of effects survive
      them, so both live in the [world] that every computation threads.
    - Drawing is recorded as [event]s; drawing itself is assumed to succeed
      (the four mode images and the background are present). *)

From Stdlib Require Import ZArith QArith List String Ascii Lia.
From stdpp Require Import gmap strings list fin_maps.

Local Open Scope string_scope.
Local Open Scope list_scope.
Local Open Scope Z_scope.

(** ** Values, records and effects *)

Inductive value :=
| VInt (n : Z)
| VStr (s : string).

Abbreviation dict := (gmap string value).

Inductive exn := ValueError | IndexError | TypeError | KeyError.

Inductive event :=
| EvPanel (mode : nat)
| EvCornerRect (box : Z * Z * Z * Z)
| EvChecking
| EvImshow
| EvGet (id : string)
| EvUpdate (id : string) (fields : dict)
| EvNoRecord (id : string)
| EvMissingImage (id : string)
| EvStudentImg (img : string)
| EvPutTotal (v : value)
| EvPutBranch (v : value)
| EvPutId (id : option string)
| EvPutName (name : string).

(** [students] is the content below the [Students] reference; [effects]
    lists what the loop has done so far, oldest first. *)
Record world := World {
  students : gmap string dict;
  effects : list event
}.

Inductive outcome (A : Type) :=
| Ok (a : A)
| Raised (e : exn).
Arguments Ok {A} a.
Arguments Raised {A} e.

Definition M (A : Type) : Type := world -> outcome A * world.

Definition ret {A} (a : A) : M A := fun w => (Ok a, w).

Definition raise {A} (e : exn) : M A := fun w => (Raised e, w).

Definition bind {A B} (m : M A) (k : A -> M B) : M B :=
  fun w => match m w with
           | (Ok a, w') => k a w'
           | (Raised e, w') => (Raised e, w')
           end.

Declare Scope py_scope.
Delimit Scope py_scope with py.
Notation "'do' x <- m ;; k" := (bind m (fun x => k))
  (at level 10, x name, m at level 99, k at level 200) : py_scope.
Local Open Scope py_scope.

Definition emit (e : event) : M unit :=
  fun w => (Ok tt, World (students w) (effects w ++ [e])).

(** [students_ref.child(id).get()] *)
Definition store_get (id : string) : M (option dict) :=
  fun w => (Ok (students w !! id),
            World (students w) (effects w ++ [EvGet id])).

(** [students_ref.child(id).update(fields)]: a partial merge, the fields
    given win, the others stay. *)
Definition store_update (id : string) (fields : dict) : M unit :=
  fun w => (Ok tt,
            World (<[id := fields ∪ default ∅ (students w !! id)]> (students w))
                  (effects w ++ [EvUpdate id fields])).

(** [xs[i]] on a Python list. *)
Definition index {A} (xs : list A) (i : nat) : M A :=
  match xs !! i with
  | Some x => ret x
  | None => raise IndexError
  end.

(** [d[k]] on a Python dict. *)
Definition getitem (d : dict) (k : string) : M value :=
  match d !! k with
  | Some v => ret v
  | None => raise KeyError
  end.

(** [d.setdefault(k, v)] *)
Definition setdefault (k : string) (v : value) (d : dict) : dict :=
  match d !! k with
  | Some _ => d
  | None => <[k := v]> d
  end.

(** ** [np.argmin]: the first index of a least element *)

Definition Qltb (a b : Q) : bool := negb (Qle_bool b a).

Fixpoint argmin_from (best : nat) (least : Q) (i : nat) (ds : list Q) : nat :=
  match ds with
  | [] => best
  | d :: ds' =>
      if Qltb d least then argmin_from i d (S i) ds'
      else argmin_from best least (S i) ds'
  end.

Definition np_argmin (ds : list Q) : M nat :=
  match ds with
  | [] => raise ValueError
  | d :: ds' => ret (argmin_from 0%nat d 1%nat ds')
  end.

(** ** The controller *)

Record locals := Locals {
  current_mode : nat;
  frame_counter : nat;
  active_id : option string;
  active_student : option dict;
  active_student_img : option string
}.

(** The state at the first iteration of the loop. *)
Definition initial : locals := Locals 0 0 None None None.

(** What the loop reads and never writes: the ids loaded from the encodings
    file and the ids [x] for which [Images/x.jpg] exists. *)
Record config := Config {
  known_ids : list string;
  image_files : gset string
}.

(** One detected face: the results of [compare_faces] and [face_distance]
    against the known encodings, and its location (top, right, bottom,
    left) in the reduced frame. *)
Record face := Face {
  matches : list bool;
  distances : list Q;
  face_location : Z * Z * Z * Z
}.

(** One camera frame that was read: its faces, and the values that the
    three calls of [datetime.now()] return if they are reached (in
    [can_mark_attendance], in the store update and in the update of the
    cached record). *)
Record frame := Frame {
  faces : list face;
  now_gate : Z;
  now_update : Z;
  now_cache : Z
}.

Definition with_stage (mode counter : nat) (st : locals) : locals :=
  Locals mode counter (active_id st) (active_student st) (active_student_img st).

Definition with_id (id : string) (st : locals) : locals :=
  Locals (current_mode st) (frame_counter st) (Some id)
         (active_student st) (active_student_img st).

Definition with_student (r : option dict) (st : locals) : locals :=
  Locals (current_mode st) (frame_counter st) (active_id st) r
         (active_student_img st).

Definition with_img (img : option string) (st : locals) : locals :=
  Locals (current_mode st) (frame_counter st) (active_id st)
         (active_student st) img.

Definition scale_box (loc : Z * Z * Z * Z) : Z * Z * Z * Z :=
  let '(top, rgt, bottom, lft) := loc in
  (55 + lft * 4, 162 + top * 4, rgt * 4 - lft * 4, bottom * 4 - top * 4).

(** Lines 128-133: the index of the closest known encoding, kept when its
    match flag is set. *)
Definition best_match (f : face) : M (option nat) :=
  do best_match_index <- np_argmin (distances f) ;;
  do m <- index (matches f) best_match_index ;;
  ret (if m : bool then Some best_match_index else None).

(** Lines 128-149: the body of the [for] loop. *)
Definition process_face (cfg : config) (f : face) (st : locals) : M locals :=
  do sel <- best_match f ;;
  match sel with
  | Some best_match_index =>
      do _ <- emit (EvCornerRect (scale_box (face_location f))) ;;
      do id <- index (known_ids cfg) best_match_index ;;
      let st := with_id id st in
      if (frame_counter st =? 0)%nat then
        do _ <- emit EvChecking ;;
        do _ <- emit EvImshow ;;
        ret (with_stage 1 1 st)
      else ret st
  | None => ret st
  end.

Fixpoint for_faces (cfg : config) (fs : list face) (st : locals) : M locals :=
  match fs with
  | [] => ret st
  | f :: fs' => do st' <- process_face cfg f st ;; for_faces cfg fs' st'
  end.

(** ** A concrete calendar

    An instance of the two library functions for the runs evaluated
    below: timestamps count microseconds from 1970-01-01 00:00:00 in the
    proleptic Gregorian calendar.  [Calendar.strptime] reads the padded
    form that [strftime] writes (19 characters) and refuses every other
    string; on that form it agrees with the Python function. *)
Module Calendar.

Definition days_from_civil (y m d : Z) : Z :=
  let y' := if m <=? 2 then y - 1 else y in
  let era := y' / 400 in
  let yoe := y' - era * 400 in
  let doy := (153 * (if 2 <? m then m - 3 else m + 9) + 2) / 5 + d - 1 in
  let doe := yoe * 365 + yoe / 4 - yoe / 100 + doy in
  era * 146097 + doe - 719468.

Definition civil_from_days (z : Z) : Z * Z * Z :=
  let z := z + 719468 in
  let era := z / 146097 in
  let doe := z - era * 146097 in
  let yoe := (doe - doe / 1460 + doe / 36524 - doe / 146096) / 365 in
  let doy := doe - (365 * yoe + yoe / 4 - yoe / 100) in
  let mp := (5 * doy + 2) / 153 in
  let d := doy - (153 * mp + 2) / 5 + 1 in
  let m := if mp <? 10 then mp + 3 else mp - 9 in
  (yoe + era * 400 + (if m <=? 2 then 1 else 0), m, d).

Definition is_leap (y : Z) : bool :=
  (y mod 4 =? 0) && (negb (y mod 100 =? 0) || (y mod 400 =? 0)).

Definition days_in_month (y m : Z) : Z :=
  if m =? 2 then (if is_leap y then 29 else 28)
  else if (m =? 4) || (m =? 6) || (m =? 9) || (m =? 11) then 30
  else 31.

Definition digit (c : ascii) : option Z :=
  let n := Z.of_nat (nat_of_ascii c) in
  if (48 <=? n) && (n <=? 57) then Some (n - 48) else None.

Fixpoint number (acc : Z) (cs : list ascii) : option Z :=
  match cs with
  | [] => Some acc
  | c :: cs' =>
      match digit c with
      | Some n => number (acc * 10 + n) cs'
      | None => None
      end
  end.

Definition is_char (c : ascii) (o : option ascii) : bool :=
  match o with
  | Some c' => bool_decide (c = c')
  | None => false
  end.

Definition field (cs : list ascii) (from len : nat) : option Z :=
  number 0 (take len (drop from cs)).

Definition strptime (s : string) : option Z :=
  let cs := list_ascii_of_string s in
  if negb ((length cs =? 19)%nat
           && is_char "-" (cs !! 4%nat) && is_char "-" (cs !! 7%nat)
           && is_char " " (cs !! 10%nat)
           && is_char ":" (cs !! 13%nat) && is_char ":" (cs !! 16%nat))
  then None
  else
    match field cs 0 4, field cs 5 2, field cs 8 2,
          field cs 11 2, field cs 14 2, field cs 17 2 with
    | Some y, Some m, Some d, Some hh, Some mm, Some ss =>
        if (1 <=? y) && (1 <=? m) && (m <=? 12)
           && (1 <=? d) && (d <=? days_in_month y m)
           && (hh <? 24) && (mm <? 60) && (ss <? 60)
        then Some ((((days_from_civil y m d * 24 + hh) * 60 + mm) * 60 + ss)
                   * 1000000)
        else None
    | _, _, _, _, _, _ => None
    end.

Definition digit_char (n : Z) : ascii :=
  ascii_of_nat (Z.to_nat (48 + n mod 10)).

Definition pad2 (n : Z) : list ascii :=
  [digit_char (n / 10); digit_char n].

Definition pad4 (n : Z) : list ascii :=
  [digit_char (n / 1000); digit_char (n / 100);
   digit_char (n / 10); digit_char n].

Definition strftime (t : Z) : string :=
  let secs := t / 1000000 in
  let '(y, m, d) := civil_from_days (secs / 86400) in
  let sod := secs mod 86400 in
  string_of_list_ascii
    (pad4 y ++ ["-"%char] ++ pad2 m ++ ["-"%char] ++ pad2 d ++ [" "%char]
     ++ pad2 (sod / 3600) ++ [":"%char] ++ pad2 (sod / 60 mod 60)
     ++ [":"%char] ++ pad2 (sod mod 60)).

End Calendar.

(** ** Reading the effects and the faces *)

(** The store writes among a sequence of effects. *)
Definition updates (evs : list event) : list (string * dict) :=
  omap (fun e => match e with EvUpdate id fs => Some (id, fs) | _ => None end) evs.

(** The highlighted boxes among a sequence of effects. *)
Definition boxes (evs : list event) : list (Z * Z * Z * Z) :=
  omap (fun e => match e with EvCornerRect b => Some b | _ => None end) evs.

(** The ids reported as having no record among a sequence of effects. *)
Definition reports (evs : list event) : list string :=
  omap (fun e => match e with EvNoRecord id => Some id | _ => None end) evs.

(** [i] is the first position of a least element of [ds]. *)
Definition is_argmin (ds : list Q) (i : nat) : Prop :=
  exists d, ds !! i = Some d
    /\ (forall j e, ds !! j = Some e -> Qle d e)
    /\ (forall j e, (j < i)%nat -> ds !! j = Some e -> Qlt d e).

(** The face comes from a comparison against as many encodings as there
    are known ids, and there is at least one. *)
Definition face_ok (cfg : config) (f : face) : Prop :=
  distances f <> []
  /\ length (matches f) = length (distances f)
  /\ length (known_ids cfg) = length (distances f).

(** The value of [best_match] on a face, as a function. *)
Definition selected (f : face) : option nat :=
  match distances f with
  | [] => None
  | d :: ds =>
      let i := argmin_from 0%nat d 1%nat ds in
      match matches f !! i with
      | Some true => Some i
      | _ => None
      end
  end.

Definition selected_id (cfg : config) (f : face) : option string :=
  match selected f with
  | Some i => known_ids cfg !! i
  | None => None
  end.

(** The ids and the boxes of the faces of a frame that pass the match
    check, in iteration order. *)
Definition matched_ids (cfg : config) (fs : list face) : list string :=
  omap (selected_id cfg) fs.

Definition matched_boxes (fs : list face) : list (Z * Z * Z * Z) :=
  omap (fun f => match selected f with
                 | Some _ => Some (scale_box (face_location f))
                 | None => None
                 end) fs.

(** The locals when the [for] loop ends. *)
Definition after_loop (cfg : config) (fs : list face) (st : locals) : locals :=
  match last (matched_ids cfg fs) with
  | None => st
  | Some id =>
      if (frame_counter st =? 0)%nat then with_stage 1 1 (with_id id st)
      else with_id id st
  end.

(** What the [for] loop draws and shows. *)
Definition face_effects (f : face) (st : locals) : list event :=
  match selected f with
  | None => []
  | Some _ =>
      EvCornerRect (scale_box (face_location f))
        :: (if (frame_counter st =? 0)%nat then [EvChecking; EvImshow] else [])
  end.

Fixpoint loop_effects (cfg : config) (fs : list face) (st : locals) : list event :=
  match fs with
  | [] => []
  | f :: fs' => face_effects f st ++ loop_effects cfg fs' (after_loop cfg [f] st)
  end.

(** A cached record that lines 195-245 can draw. *)
Definition drawable (st : locals) : Prop :=
  exists d total branch name img,
    active_student st = Some d
    /\ d !! "total_attendance" = Some total
    /\ d !! "branch" = Some branch
    /\ d !! "name" = Some (VStr name)
    /\ active_student_img st = Some img.

(** The computation highlights no face. *)
Definition no_boxes {A} (m : M A) : Prop :=
  forall w, exists evs, effects (m w).2 = effects w ++ evs /\ boxes evs = [].


(** The computation leaves the store as it is and asks for no update. *)
Definition no_writes {A} (m : M A) : Prop :=
  forall w,
    students (m w).2 = students w
    /\ exists evs, effects (m w).2 = effects w ++ evs /\ updates evs = [].

(** The loop is drawing a record: mode other than 3, counter from 2 to
    19, and the cached record can be drawn. *)
Definition displaying (st : locals) : Prop :=
  current_mode st <> 3%nat
  /\ (2 <= frame_counter st < 20)%nat
  /\ drawable st.

Definition detected (cfg : config) (fr : frame) : Prop :=
  faces fr <> [] /\ Forall (face_ok cfg) (faces fr).


(** What a loop iteration does after the identification block: go on to the
    drawing of the record, or [continue] with the next frame. *)
Inductive flow :=
| Next (st : locals)
| Continue (st : locals).

Definition cooldown_default : Z := 30.

(** ** A scenario

    Three enrolled ids with their pictures; two of them have a record.  The
    record of S001 was marked on 2024-03-01 at 09:00:00, the record of S002
    has no timestamp yet. *)
Module Scenario.

Definition cfg : config :=
  Config ["S001"; "S002"; "S003"] {["S001"; "S002"; "S003"]}.

Definition record_S001 : dict :=
  <["name" := VStr "Ann"]>
    (<["branch" := VStr "CS"]>
       (<["total_attendance" := VInt 4]>
          {["last_attendance_time" := VStr "2024-03-01 09:00:00"]})).

Definition record_S002 : dict :=
  <["name" := VStr "Bo"]>
    (<["branch" := VStr "EE"]> {["total_attendance" := VInt 0]}).

Definition store : gmap string dict :=
  <["S001" := record_S001]> {["S002" := record_S002]}.

Definition world0 : world := World store [].

(** The instant a padded timestamp denotes. *)
Definition at_time (s : string) : Z := default 0 (Calendar.strptime s).

Definition face_S001 : face :=
  Face [true; false; false] [0.31%Q; 0.74%Q; 0.82%Q] (20, 90, 60, 50).

Definition face_S002 : face :=
  Face [false; true; false] [0.77%Q; 0.42%Q; 0.69%Q] (25, 150, 65, 110).

Definition face_S003 : face :=
  Face [false; false; true] [0.91%Q; 0.88%Q; 0.35%Q] (30, 70, 70, 30).

Definition face_stranger : face :=
  Face [false; false; false] [0.71%Q; 0.66%Q; 0.93%Q] (10, 80, 50, 40).

(** A frame whose three clock readings fall on the same instant. *)
Definition frame_at (fs : list face) (s : string) : frame :=
  Frame fs (at_time s) (at_time s) (at_time s).

(** S001 comes back five minutes after the last mark; the store update
    reads the clock just before 09:05:06, the cached record just after. *)
Definition frame_across_a_second : frame :=
  Frame [face_S001] (at_time "2024-03-01 09:05:05")
        (at_time "2024-03-01 09:05:05" + 999999)
        (at_time "2024-03-01 09:05:06" + 1).

(** The locals after the mark of S001 at 09:05:05. *)
Definition drawing_S001 : locals :=
  Locals 1 2 (Some "S001")
    (Some (<["last_attendance_time" := VStr "2024-03-01 09:05:05"]>
             (<["total_attendance" := VInt 5]> record_S001)))
    (Some "S001").

(** The locals after a refused mark of S001. *)
Definition refused_S001 : locals :=
  Locals 3 0 (Some "S001") (Some record_S001) (Some "S001").

End Scenario.

Section Controller.

(** [datetime.strptime(s, "%Y-%m-%d %H:%M:%S")], [None] when it raises,
    and [t.strftime("%Y-%m-%d %H:%M:%S")].  Both belong to the Python
    library; the controller is parametric in them. *)
Variable strptime : string -> option Z.
Variable strftime : Z -> string.

(** Lines 62-70.  A value that is not a string makes [strptime] raise
    inside the [try], like a string that does not parse. *)
Definition can_mark_attendance
    (last_time_str : value) (cooldown_seconds : Z) (now : Z) : bool :=
  match last_time_str with
  | VStr s =>
      match strptime s with
      | Some last_time => cooldown_seconds * 1000000 <? now - last_time
      | None => true
      end
  | VInt _ => true
  end.

(** Lines 73-83.  The result is [student_data] after the two assignments
    at the end; [student_data] is the object the caller holds in
    [active_student]. *)
Definition update_attendance
    (student_id : string) (student_data : dict) (now1 now2 : Z) : M dict :=
  do new_total <-
    match default (VInt 0) (student_data !! "total_attendance") with
    | VInt n => ret (n + 1)
    | VStr _ => raise TypeError
    end ;;
  do _ <- store_update student_id
    (<["total_attendance" := VInt new_total]>
       {["last_attendance_time" := VStr (strftime now1)]}) ;;
  ret (<["last_attendance_time" := VStr (strftime now2)]>
         (<["total_attendance" := VInt new_total]> student_data)).

(** Lines 163-166. *)
Definition fill_defaults (id : string) (d : dict) : dict :=
  setdefault "last_attendance_time" (VStr "2000-01-01 00:00:00")
    (setdefault "total_attendance" (VInt 0)
       (setdefault "branch" (VStr "N/A")
          (setdefault "name" (VStr id) d))).

(** Lines 180-185, entered with the record [d] cached. *)
Definition gate (id : string) (d : dict) (fr : frame) (st : locals) : M flow :=
  do last <- getitem d "last_attendance_time" ;;
  if can_mark_attendance last cooldown_default (now_gate fr) then
    do d' <- update_attendance id d (now_update fr) (now_cache fr) ;;
    ret (Next (with_student (Some d') st))
  else ret (Next (with_stage 3 0 st)).

(** Lines 153-185: the block under [if frame_counter == 1].  [child]
    refuses a path that is not a string; [not active_student] holds for
    [None] and for an empty dict. *)
Definition identify (cfg : config) (fr : frame) (st : locals) : M flow :=
  match active_id st with
  | None => raise ValueError
  | Some id =>
      do r <- store_get id ;;
      let st := with_student r st in
      match r with
      | None =>
          do _ <- emit (EvNoRecord id) ;; ret (Continue (with_stage 0 0 st))
      | Some d0 =>
          if (size d0 =? 0)%nat then
            do _ <- emit (EvNoRecord id) ;; ret (Continue (with_stage 0 0 st))
          else
            let d := fill_defaults id d0 in
            let st := with_student (Some d) st in
            if bool_decide (id ∈ image_files cfg) then
              let st := with_img (Some id) st in
              do _ <- emit (EvStudentImg id) ;;
              gate id d fr st
            else
              do _ <- emit (EvMissingImage id) ;;
              ret (Continue (with_stage 0 0 st))
      end
  end.

(** Lines 195-245: the texts and the picture of the cached record.
    Subscripting [None] raises [TypeError]; [cv2] wants a string for the
    name and an array for the picture. *)
Definition render (st : locals) : M unit :=
  match active_student st with
  | None => raise TypeError
  | Some d =>
      do total <- getitem d "total_attendance" ;;
      do _ <- emit (EvPutTotal total) ;;
      do branch <- getitem d "branch" ;;
      do _ <- emit (EvPutBranch branch) ;;
      do _ <- emit (EvPutId (active_id st)) ;;
      do name <- getitem d "name" ;;
      match name with
      | VInt _ => raise TypeError
      | VStr s =>
          do _ <- emit (EvPutName s) ;;
          match active_student_img st with
          | None => raise TypeError
          | Some img => emit (EvStudentImg img)
          end
      end
  end.

(** Lines 190-254: the block under [if current_mode != 3]. *)
Definition display (st : locals) : M locals :=
  let st :=
    if (10 <? frame_counter st)%nat && (frame_counter st <? 20)%nat
    then with_stage 2 (frame_counter st) st else st in
  do _ <- emit (EvPanel (current_mode st)) ;;
  do _ <- (if (frame_counter st <=? 10)%nat then render st else ret tt) ;;
  let st := with_stage (current_mode st) (S (frame_counter st)) st in
  if (20 <=? frame_counter st)%nat then
    do _ <- emit (EvPanel 0) ;;
    ret (Locals 0 0 (active_id st) None None)
  else ret st.

(** Lines 153-261: what follows the [for] loop when a face was detected. *)
Definition after_faces (cfg : config) (fr : frame) (st : locals) : M locals :=
  do fl <- (if (frame_counter st =? 1)%nat
            then identify cfg fr st else ret (Next st)) ;;
  match fl with
  | Continue st => ret st
  | Next st =>
      do st <- (if (current_mode st =? 3)%nat
                then ret st else display st) ;;
      do _ <- emit EvImshow ;;
      ret st
  end.

(** Lines 122-261: one iteration of the loop on a frame that was read. *)
Definition tick (cfg : config) (fr : frame) (st : locals) : M locals :=
  do _ <- emit (EvPanel (current_mode st)) ;;
  match faces fr with
  | [] =>
      do _ <- emit EvImshow ;; ret (with_stage 0 0 st)
  | _ :: _ =>
      do st <- for_faces cfg (faces fr) st ;;
      after_faces cfg fr st
  end.

(** Consecutive iterations, one per frame. *)
Fixpoint run (cfg : config) (frs : list frame) (st : locals) : M locals :=
  match frs with
  | [] => ret st
  | fr :: frs' => do st' <- tick cfg fr st ;; run cfg frs' st'
  end.

(** ** Properties *)


Lemma argmin_from_spec (ds pre : list Q) (best : nat) (least : Q) :
  pre !! best = Some least ->
  (forall j e, pre !! j = Some e -> Qle least e) ->
  (forall j e, (j < best)%nat -> pre !! j = Some e -> Qlt least e) ->
  is_argmin (pre ++ ds) (argmin_from best least (length pre) ds).
Proof.
  revert pre best least.
  induction ds as [|d ds IH]; intros pre best least Hbest Hle Hlt; simpl.
  - rewrite app_nil_r. exists least. auto.
  - replace (pre ++ d :: ds)%list with ((pre ++ [d]) ++ ds)%list
      by (rewrite <- app_assoc; reflexivity).
    replace (S (length pre)) with (length (pre ++ [d])%list)
      by (rewrite length_app; simpl; lia).
    unfold Qltb. destruct (Qle_bool least d) eqn:Hcmp; simpl.
    + apply Qle_bool_iff in Hcmp. apply IH.
      * rewrite lookup_app_l; [exact Hbest|].
        apply lookup_lt_Some in Hbest. exact Hbest.
      * intros j e Hj. apply lookup_app_Some in Hj as [Hj | [_ Hj]].
        -- eauto.
        -- apply list_lookup_singleton_Some in Hj as [_ <-]. exact Hcmp.
      * intros j e Hjb Hj. apply lookup_app_Some in Hj as [Hj | [Hge _]].
        -- eauto.
        -- apply lookup_lt_Some in Hbest. lia.
    + assert (Hd : Qlt d least).
      { apply Qnot_le_lt. intros H. apply Qle_bool_iff in H. congruence. }
      apply IH.
      * rewrite lookup_app_r by lia. rewrite Nat.sub_diag. reflexivity.
      * intros j e Hj. apply lookup_app_Some in Hj as [Hj | [_ Hj]].
        -- apply Qlt_le_weak. eapply Qlt_le_trans; [exact Hd | eauto].
        -- apply list_lookup_singleton_Some in Hj as [_ <-]. apply Qle_refl.
      * intros j e Hjb Hj. apply lookup_app_Some in Hj as [Hj | [Hge _]].
        -- eapply Qlt_le_trans; [exact Hd | eauto].
        -- lia.
Qed.

Lemma argmin_first (d : Q) (ds : list Q) :
  is_argmin (d :: ds) (argmin_from 0%nat d 1%nat ds).
Proof.
  apply (argmin_from_spec ds [d] 0%nat d).
  - reflexivity.
  - intros [|j] e Hj; simpl in Hj; [|destruct j; discriminate].
    injection Hj as <-. apply Qle_refl.
  - intros j e Hj. lia.
Qed.

Lemma is_argmin_lt (ds : list Q) (i : nat) :
  is_argmin ds i -> (i < length ds)%nat.
Proof. intros (d & Hd & _). apply (lookup_lt_Some ds i d Hd). Qed.

(** C8.  For every detected face compared against a non-empty gallery, the
    selection first takes the first position of least distance over the
    whole gallery and then returns that position exactly when its own match
    flag is set; no other distance or flag takes part. *)
Theorem best_match_min_then_flag (f : face) (w : world) :
  distances f <> [] ->
  length (matches f) = length (distances f) ->
  exists (i : nat) (m : bool),
    is_argmin (distances f) i
    /\ matches f !! i = Some m
    /\ best_match f w = (Ok (if m then Some i else None), w)
    /\ (best_match f w = (Ok (Some i), w) <-> m = true).
Proof.
  intros Hne Hlen. unfold best_match, np_argmin, bind.
  destruct (distances f) as [|d ds] eqn:Hds; [congruence|].
  pose proof (argmin_first d ds) as Harg.
  set (i := argmin_from 0%nat d 1%nat ds) in *.
  pose proof (is_argmin_lt _ _ Harg) as Hlt. rewrite <- Hlen in Hlt.
  destruct (lookup_lt_is_Some_2 _ _ Hlt) as [m Hm].
  exists i, m. split; [exact Harg|]. split; [exact Hm|].
  unfold ret, index. simpl. rewrite Hm. simpl.
  split; [reflexivity|].
  destruct m; split; intros H; try reflexivity; discriminate.
Qed.

(** *** The [for] loop *)

Lemma best_match_selected (cfg : config) (f : face) (w : world) :
  face_ok cfg f ->
  best_match f w = (Ok (selected f), w)
  /\ (forall i, selected f = Some i -> is_Some (known_ids cfg !! i)).
Proof.
  intros (Hne & Hm & Hk). unfold best_match, selected, np_argmin, bind.
  destruct (distances f) as [|d ds] eqn:Hds; [congruence|].
  pose proof (is_argmin_lt _ _ (argmin_first d ds)) as Hlt.
  set (i := argmin_from 0%nat d 1%nat ds) in *.
  assert (Hmi : is_Some (matches f !! i)) by (apply lookup_lt_is_Some_2; lia).
  destruct Hmi as [m Hmi]. unfold ret, index. simpl. rewrite Hmi. simpl.
  split.
  - destruct m; reflexivity.
  - intros j Hj. destruct m; [|discriminate]. injection Hj as <-.
    apply lookup_lt_is_Some_2. lia.
Qed.

Lemma selected_id_Some (cfg : config) (f : face) :
  face_ok cfg f -> is_Some (selected f) -> is_Some (selected_id cfg f).
Proof.
  intros Hok [i Hi]. unfold selected_id. rewrite Hi.
  apply (best_match_selected cfg f (World ∅ [])); assumption.
Qed.

Lemma after_loop_nil (cfg : config) (st : locals) : after_loop cfg [] st = st.
Proof. reflexivity. Qed.

Lemma matched_ids_cons (cfg : config) (f : face) (fs : list face) :
  matched_ids cfg (f :: fs)
  = match selected_id cfg f with
    | Some id => id :: matched_ids cfg fs
    | None => matched_ids cfg fs
    end.
Proof. reflexivity. Qed.

Lemma after_loop_cons (cfg : config) (f : face) (fs : list face) (st : locals) :
  after_loop cfg (f :: fs) st = after_loop cfg fs (after_loop cfg [f] st).
Proof.
  unfold after_loop. rewrite !matched_ids_cons.
  change (matched_ids cfg []) with (@nil string).
  destruct (selected_id cfg f) as [id1|]; [|reflexivity].
  destruct (matched_ids cfg fs) as [|id2 ids]; [reflexivity|].
  rewrite (last_cons_cons id1 id2 ids).
  destruct (last (id2 :: ids)) as [id|] eqn:Hlast.
  - destruct st as [m [|c] a s i]; reflexivity.
  - apply last_None in Hlast. discriminate.
Qed.

Lemma process_face_spec (cfg : config) (f : face) (st : locals) (w : world) :
  face_ok cfg f ->
  process_face cfg f st w
  = (Ok (after_loop cfg [f] st),
     World (students w) (effects w ++ face_effects f st)).
Proof.
  intros Hok. destruct (best_match_selected cfg f w Hok) as [Hb Hk].
  unfold process_face, bind. rewrite Hb.
  unfold after_loop, matched_ids, face_effects, selected_id. simpl.
  destruct (selected f) as [i|] eqn:Hsel.
  - destruct (Hk i eq_refl) as [id Hid]. unfold emit, index. simpl.
    rewrite Hid. simpl. unfold ret.
    destruct (frame_counter st =? 0)%nat; simpl;
      rewrite <- ?app_assoc; reflexivity.
  - unfold ret. simpl. rewrite app_nil_r. destruct w; reflexivity.
Qed.

Lemma for_faces_spec (cfg : config) (fs : list face) (st : locals) (w : world) :
  Forall (face_ok cfg) fs ->
  for_faces cfg fs st w
  = (Ok (after_loop cfg fs st),
     World (students w) (effects w ++ loop_effects cfg fs st)).
Proof.
  intros Hok. revert st w.
  induction Hok as [|f fs Hf _ IH]; intros st w; simpl.
  - unfold ret. rewrite app_nil_r. destruct w; reflexivity.
  - unfold bind. rewrite (process_face_spec cfg f st w Hf), IH. simpl.
    rewrite <- after_loop_cons, <- app_assoc. reflexivity.
Qed.

Lemma loop_effects_updates (cfg : config) (fs : list face) (st : locals) :
  updates (loop_effects cfg fs st) = [].
Proof.
  revert st. induction fs as [|f fs IH]; intros st; simpl; [reflexivity|].
  unfold updates in *. rewrite omap_app, IH, app_nil_r.
  unfold face_effects. destruct (selected f); [|reflexivity].
  destruct (frame_counter st =? 0)%nat; reflexivity.
Qed.

Lemma loop_effects_boxes (cfg : config) (fs : list face) (st : locals) :
  boxes (loop_effects cfg fs st) = matched_boxes fs.
Proof.
  revert st. induction fs as [|f fs IH]; intros st; simpl; [reflexivity|].
  unfold boxes, matched_boxes in *. rewrite omap_app, IH. simpl.
  unfold face_effects. destruct (selected f); [|reflexivity].
  destruct (frame_counter st =? 0)%nat; reflexivity.
Qed.

Lemma loop_effects_unmatched (cfg : config) (fs : list face) (st : locals) :
  Forall (fun f => selected f = None) fs -> loop_effects cfg fs st = [].
Proof.
  intros Hnone. revert st.
  induction Hnone as [|f fs Hf _ IH]; intros st; simpl; [reflexivity|].
  rewrite IH. unfold face_effects. rewrite Hf. reflexivity.
Qed.

Lemma matched_ids_unmatched (cfg : config) (fs : list face) :
  Forall (fun f => selected f = None) fs -> matched_ids cfg fs = [].
Proof.
  induction 1 as [|f fs Hf _ IH]; [reflexivity|].
  rewrite matched_ids_cons. unfold selected_id. rewrite Hf. exact IH.
Qed.

Lemma after_loop_fields (cfg : config) (fs : list face) (st : locals) :
  active_student (after_loop cfg fs st) = active_student st
  /\ active_student_img (after_loop cfg fs st) = active_student_img st
  /\ active_id (after_loop cfg fs st)
     = match last (matched_ids cfg fs) with
       | Some id => Some id
       | None => active_id st
       end.
Proof.
  unfold after_loop. destruct (last (matched_ids cfg fs)); [|auto].
  destruct (frame_counter st =? 0)%nat; auto.
Qed.

Lemma after_loop_stage (cfg : config) (fs : list face) (st : locals) :
  (frame_counter st <> 0%nat \/ matched_ids cfg fs = [] ->
   current_mode (after_loop cfg fs st) = current_mode st
   /\ frame_counter (after_loop cfg fs st) = frame_counter st)
  /\ (frame_counter st = 0%nat -> matched_ids cfg fs <> [] ->
      current_mode (after_loop cfg fs st) = 1%nat
      /\ frame_counter (after_loop cfg fs st) = 1%nat).
Proof.
  unfold after_loop. split.
  - intros [Hfc | Hnil].
    + destruct (last (matched_ids cfg fs)); [|auto].
      apply Nat.eqb_neq in Hfc. rewrite Hfc. auto.
    + rewrite Hnil. auto.
  - intros Hfc Hne. destruct (last (matched_ids cfg fs)) eqn:Hlast.
    + rewrite Hfc. auto.
    + apply last_None in Hlast. contradiction.
Qed.

(** *** Effects that highlight no face *)

Lemma no_boxes_ret {A} (a : A) : no_boxes (ret a).
Proof. intros w. exists []. simpl. rewrite app_nil_r. auto. Qed.

Lemma no_boxes_raise {A} (e : exn) : no_boxes (@raise A e).
Proof. intros w. exists []. simpl. rewrite app_nil_r. auto. Qed.

Lemma no_boxes_bind {A B} (m : M A) (k : A -> M B) :
  no_boxes m -> (forall a, no_boxes (k a)) -> no_boxes (bind m k).
Proof.
  intros Hm Hk w. unfold bind. destruct (Hm w) as (evs1 & H1 & Hb1).
  destruct (m w) as [[a|e] w1]; simpl in *.
  - destruct (Hk a w1) as (evs2 & H2 & Hb2). exists (evs1 ++ evs2).
    rewrite H2, H1, <- app_assoc. split; [reflexivity|].
    unfold boxes in *. rewrite omap_app, Hb1, Hb2. reflexivity.
  - exists evs1. auto.
Qed.

Lemma no_boxes_emit (e : event) :
  boxes [e] = [] -> no_boxes (emit e).
Proof. intros He w. exists [e]. auto. Qed.

Lemma no_boxes_store_get (id : string) : no_boxes (store_get id).
Proof. intros w. exists [EvGet id]. auto. Qed.

Lemma no_boxes_store_update (id : string) (fs : dict) :
  no_boxes (store_update id fs).
Proof. intros w. exists [EvUpdate id fs]. auto. Qed.

Lemma no_boxes_getitem (d : dict) (k : string) : no_boxes (getitem d k).
Proof.
  unfold getitem. destruct (d !! k); [apply no_boxes_ret | apply no_boxes_raise].
Qed.

Ltac quiet :=
  repeat first
    [ apply no_boxes_bind; [|intros ?]
    | apply no_boxes_emit; reflexivity
    | apply no_boxes_ret
    | apply no_boxes_raise
    | apply no_boxes_store_get
    | apply no_boxes_store_update
    | apply no_boxes_getitem
    | case_match ].

Lemma no_boxes_after_faces (cfg : config) (fr : frame) (st : locals) :
  no_boxes (after_faces cfg fr st).
Proof.
  unfold after_faces, identify, gate, update_attendance, display, render.
  quiet.
Qed.

(** *** One iteration, by the kind of frame *)

Ltac run_all :=
  unfold after_faces, identify, gate, update_attendance, display, render,
    bind, ret, raise, emit, store_get, store_update, getitem, index in *.

Lemma after_faces_active_id
    (cfg : config) (fr : frame) (st st' : locals) (w w' : world) :
  after_faces cfg fr st w = (Ok st', w') -> active_id st' = active_id st.
Proof.
  run_all. intros H.
  repeat (case_match; simplify_eq); simpl in *; try reflexivity; congruence.
Qed.

Lemma tick_no_face (cfg : config) (fr : frame) (st : locals) (w : world) :
  faces fr = [] ->
  tick cfg fr st w
  = (Ok (with_stage 0 0 st),
     World (students w) (effects w ++ [EvPanel (current_mode st); EvImshow])).
Proof.
  intros Hfaces. unfold tick, bind, emit, ret. simpl. rewrite Hfaces.
  simpl. rewrite <- app_assoc. reflexivity.
Qed.

Lemma tick_detected (cfg : config) (fr : frame) (st : locals) (w : world) :
  faces fr <> [] ->
  Forall (face_ok cfg) (faces fr) ->
  tick cfg fr st w
  = after_faces cfg fr (after_loop cfg (faces fr) st)
      (World (students w)
         (effects w ++ EvPanel (current_mode st)
                         :: loop_effects cfg (faces fr) st)).
Proof.
  intros Hne Hok. unfold tick, bind at 1, emit. simpl.
  destruct (faces fr) as [|f fs] eqn:Hfaces; [congruence|].
  unfold bind. rewrite (for_faces_spec cfg (f :: fs) st _ Hok). simpl.
  rewrite <- app_assoc. reflexivity.
Qed.

Lemma matched_boxes_cons (f : face) (fs : list face) :
  matched_boxes (f :: fs)
  = match selected f with
    | Some _ => scale_box (face_location f) :: matched_boxes fs
    | None => matched_boxes fs
    end.
Proof. unfold matched_boxes. simpl. destruct (selected f); reflexivity. Qed.

(** C9.  When two or more faces of a frame pass the match check, the
    [for] loop ends with [active_id] set to the id of the last of them in
    iteration order, whatever ids the earlier ones had, and it has
    highlighted the box of every one of them; the rest of the iteration
    keeps that id and highlights nothing else. *)
Theorem last_matched_face_wins
    (cfg : config) (fr : frame) (st : locals) (w : world) :
  Forall (face_ok cfg) (faces fr) ->
  (2 <= length (matched_ids cfg (faces fr)))%nat ->
  exists id,
    last (matched_ids cfg (faces fr)) = Some id
    /\ length (matched_boxes (faces fr)) = length (matched_ids cfg (faces fr))
    /\ (exists st1 evs,
          for_faces cfg (faces fr) st w
          = (Ok st1, World (students w) (effects w ++ evs))
          /\ active_id st1 = Some id
          /\ boxes evs = matched_boxes (faces fr))
    /\ (forall st' w',
          tick cfg fr st w = (Ok st', w') ->
          active_id st' = Some id
          /\ exists evs, effects w' = effects w ++ evs
               /\ boxes evs = matched_boxes (faces fr)).
Proof.
  intros Hok Hlen.
  destruct (last (matched_ids cfg (faces fr))) as [id|] eqn:Hlast.
  2: { apply last_None in Hlast. rewrite Hlast in Hlen. simpl in Hlen. lia. }
  assert (Hne : faces fr <> []).
  { intros Hnil. rewrite Hnil in Hlast. discriminate. }
  pose proof (after_loop_fields cfg (faces fr) st) as (_ & _ & Hid).
  rewrite Hlast in Hid.
  exists id. split; [reflexivity|]. split.
  { clear -Hok. induction Hok as [|f fs Hf _ IH]; [reflexivity|].
    rewrite matched_ids_cons, matched_boxes_cons.
    destruct (selected f) as [i|] eqn:Hsel.
    - destruct (selected_id_Some cfg f Hf) as [id' Hid'];
        [rewrite Hsel; eauto|].
      rewrite Hid'. simpl. rewrite IH. reflexivity.
    - unfold selected_id. rewrite Hsel. exact IH. }
  split.
  - exists (after_loop cfg (faces fr) st), (loop_effects cfg (faces fr) st).
    rewrite (for_faces_spec cfg (faces fr) st w Hok).
    split; [reflexivity|]. split; [exact Hid|]. apply loop_effects_boxes.
  - intros st' w' Htick. rewrite (tick_detected cfg fr st w Hne Hok) in Htick.
    split.
    + rewrite (after_faces_active_id _ _ _ _ _ _ Htick). exact Hid.
    + destruct (no_boxes_after_faces cfg fr (after_loop cfg (faces fr) st)
                  (World (students w)
                     (effects w ++ EvPanel (current_mode st)
                        :: loop_effects cfg (faces fr) st)))
        as (evs & Heff & Hbox).
      rewrite Htick in Heff. simpl in Heff.
      exists ((EvPanel (current_mode st) :: loop_effects cfg (faces fr) st)
                ++ evs).
      rewrite Heff, <- app_assoc. split; [reflexivity|].
      unfold boxes in *. rewrite omap_app, Hbox, app_nil_r. simpl.
      apply loop_effects_boxes.
Qed.

(** C7, as the code has it.  An iteration on a frame without a face ends
    with the mode and the counter at their initial value 0, reads and
    writes nothing in the store, and leaves [active_id], the cached record
    and the cached picture as they were. *)
Theorem no_face_resets_stage_only
    (cfg : config) (fr : frame) (st : locals) (w : world) :
  faces fr = [] ->
  exists st' w',
    tick cfg fr st w = (Ok st', w')
    /\ current_mode st' = 0%nat
    /\ frame_counter st' = 0%nat
    /\ active_id st' = active_id st
    /\ active_student st' = active_student st
    /\ active_student_img st' = active_student_img st
    /\ students w' = students w
    /\ effects w' = effects w ++ [EvPanel (current_mode st); EvImshow].
Proof.
  intros Hfaces. eexists _, _. rewrite (tick_no_face cfg fr st w Hfaces).
  repeat split.
Qed.

(** C10, on the code.  From the initial locals, an iteration on a frame
    whose faces all fail the match check does not complete: the drawing
    of the record subscripts the cached record, which is still [None].
    The store is untouched. *)
Theorem unmatched_face_at_start_raises
    (cfg : config) (fr : frame) (w : world) :
  faces fr <> [] ->
  Forall (face_ok cfg) (faces fr) ->
  Forall (fun f => selected f = None) (faces fr) ->
  tick cfg fr initial w
  = (Raised TypeError,
     World (students w) (effects w ++ [EvPanel 0; EvPanel 0])).
Proof.
  intros Hne Hok Hnone. rewrite (tick_detected cfg fr initial w Hne Hok).
  unfold after_loop.
  rewrite (matched_ids_unmatched cfg _ Hnone),
    (loop_effects_unmatched cfg _ initial Hnone).
  run_all. simpl. rewrite <- app_assoc. reflexivity.
Qed.

(** C5, as the code has it.  From the stage of a refused mark (mode 3,
    counter 0) the next iteration draws the panel of mode 3 first.  Without
    a face it ends in the idle stage and keeps [active_id] and the cached
    record; with faces that all fail the match check it ends in the stage
    it started from; with a face that passes, the [for] loop ends as it
    does from the idle stage, so identification starts again. *)
Theorem after_refusal (cfg : config) (fr : frame) (st : locals) (w : world) :
  current_mode st = 3%nat ->
  frame_counter st = 0%nat ->
  Forall (face_ok cfg) (faces fr) ->
  (faces fr = [] ->
     tick cfg fr st w
     = (Ok (with_stage 0 0 st),
        World (students w) (effects w ++ [EvPanel 3; EvImshow])))
  /\ (faces fr <> [] -> Forall (fun f => selected f = None) (faces fr) ->
        tick cfg fr st w
        = (Ok st, World (students w) (effects w ++ [EvPanel 3; EvImshow])))
  /\ (matched_ids cfg (faces fr) <> [] ->
        after_loop cfg (faces fr) st
        = after_loop cfg (faces fr) (with_stage 0 0 st)
        /\ tick cfg fr st w
           = after_faces cfg fr (after_loop cfg (faces fr) (with_stage 0 0 st))
               (World (students w)
                  (effects w ++ EvPanel 3 :: loop_effects cfg (faces fr) st))).
Proof.
  intros Hmode Hfc Hok. destruct st as [m c a s i].
  simpl in Hmode, Hfc. subst m c. split; [|split].
  - intros Hfaces. rewrite (tick_no_face cfg fr _ w Hfaces). reflexivity.
  - intros Hne Hnone. rewrite (tick_detected cfg fr _ w Hne Hok).
    unfold after_loop.
    rewrite (matched_ids_unmatched cfg _ Hnone),
      (loop_effects_unmatched cfg _ _ Hnone).
    run_all. simpl. rewrite <- app_assoc. reflexivity.
  - intros Hmatched.
    assert (Hloop : after_loop cfg (faces fr) (Locals 3 0 a s i)
                    = after_loop cfg (faces fr)
                        (with_stage 0 0 (Locals 3 0 a s i))).
    { unfold after_loop.
      destruct (last (matched_ids cfg (faces fr))) as [id|] eqn:Hlast.
      - reflexivity.
      - apply last_None in Hlast. contradiction. }
    split; [exact Hloop|].
    assert (Hne : faces fr <> []).
    { intros Hnil. rewrite Hnil in Hmatched. contradiction. }
    rewrite (tick_detected cfg fr _ w Hne Hok), Hloop. reflexivity.
Qed.

(** *** Records with their defaults *)

Lemma lookup_setdefault (k k' : string) (v : value) (d : dict) :
  setdefault k v d !! k'
  = if decide (k = k') then Some (default v (d !! k)) else d !! k'.
Proof.
  unfold setdefault. destruct (d !! k) as [x|] eqn:Hk.
  - destruct (decide (k = k')) as [<-|]; simpl; congruence.
  - rewrite lookup_insert. destruct (decide (k = k')); reflexivity.
Qed.

Lemma fill_defaults_branch (id : string) (d : dict) :
  is_Some (fill_defaults id d !! "branch").
Proof.
  unfold fill_defaults. rewrite !lookup_setdefault. simpl. eauto.
Qed.

Lemma size_non_empty (d : dict) : d <> ∅ -> (size d =? 0)%nat = false.
Proof.
  intros Hne. apply Nat.eqb_neq. intros Hsize.
  apply map_size_empty_iff in Hsize. contradiction.
Qed.

(** *** The identification block *)

Lemma identify_absent
    (cfg : config) (fr : frame) (st : locals) (w : world) (id : string) :
  active_id st = Some id ->
  students w !! id = None ->
  identify cfg fr st w
  = (Ok (Continue (with_stage 0 0 (with_student None st))),
     World (students w) (effects w ++ [EvGet id; EvNoRecord id])).
Proof.
  intros Hid Habsent. unfold identify. rewrite Hid.
  unfold bind, store_get, emit, ret. simpl. rewrite Habsent. simpl.
  rewrite <- app_assoc. reflexivity.
Qed.

Lemma identify_gate
    (cfg : config) (fr : frame) (st : locals) (w : world)
    (id : string) (d0 : dict) :
  active_id st = Some id ->
  students w !! id = Some d0 ->
  d0 <> ∅ ->
  id ∈ image_files cfg ->
  identify cfg fr st w
  = gate id (fill_defaults id d0) fr
      (with_img (Some id) (with_student (Some (fill_defaults id d0)) st))
      (World (students w) (effects w ++ [EvGet id; EvStudentImg id])).
Proof.
  intros Hid Hrec Hne Himg. unfold identify. rewrite Hid.
  unfold bind at 1, store_get. simpl. rewrite Hrec.
  rewrite (size_non_empty d0 Hne), (bool_decide_eq_true_2 _ Himg).
  unfold bind, emit. simpl. rewrite <- app_assoc. reflexivity.
Qed.

Lemma gate_accept
    (fr : frame) (st : locals) (w : world) (id s : string) (d : dict)
    (last_time n : Z) :
  d !! "last_attendance_time" = Some (VStr s) ->
  strptime s = Some last_time ->
  cooldown_default * 1000000 < now_gate fr - last_time ->
  d !! "total_attendance" = Some (VInt n) ->
  gate id d fr st w
  = (Ok (Next (with_student
                 (Some (<["last_attendance_time" :=
                            VStr (strftime (now_cache fr))]>
                          (<["total_attendance" := VInt (n + 1)]> d))) st)),
     World (<[id := <["total_attendance" := VInt (n + 1)]>
                      {["last_attendance_time" :=
                          VStr (strftime (now_update fr))]}
                    ∪ default ∅ (students w !! id)]> (students w))
           (effects w
              ++ [EvUpdate id
                    (<["total_attendance" := VInt (n + 1)]>
                       {["last_attendance_time" :=
                           VStr (strftime (now_update fr))]})])).
Proof.
  intros Hlast Hparse Hold Htotal.
  unfold gate, bind, getitem, can_mark_attendance. rewrite Hlast.
  unfold ret at 1. cbv beta iota. rewrite Hparse.
  apply Z.ltb_lt in Hold. rewrite Hold.
  unfold update_attendance, bind. rewrite Htotal. reflexivity.
Qed.

Lemma gate_refuse
    (fr : frame) (st : locals) (w : world) (id s : string) (d : dict)
    (last_time : Z) :
  d !! "last_attendance_time" = Some (VStr s) ->
  strptime s = Some last_time ->
  now_gate fr - last_time <= cooldown_default * 1000000 ->
  gate id d fr st w = (Ok (Next (with_stage 3 0 st)), w).
Proof.
  intros Hlast Hparse Hrecent.
  unfold gate, bind, getitem, can_mark_attendance. rewrite Hlast.
  unfold ret at 1. cbv beta iota. rewrite Hparse.
  apply Z.ltb_ge in Hrecent. rewrite Hrecent. reflexivity.
Qed.

(** *** The drawing block *)

Lemma updates_app (evs1 evs2 : list event) :
  updates (evs1 ++ evs2) = updates evs1 ++ updates evs2.
Proof. apply omap_app. Qed.

Lemma updates_cons (e : event) (evs : list event) :
  updates (e :: evs)
  = match e with
    | EvUpdate id fs => (id, fs) :: updates evs
    | _ => updates evs
    end.
Proof. destruct e; reflexivity. Qed.

Ltac count_updates :=
  repeat first
    [ rewrite updates_cons; cbv beta iota
    | rewrite updates_app
    | rewrite loop_effects_updates ];
  change (updates []) with (@nil (string * dict)).

Lemma display_draws (st : locals) (w : world) :
  (frame_counter st <= 10)%nat ->
  drawable st ->
  exists evs,
    display st w
    = (Ok (with_stage (current_mode st) (S (frame_counter st)) st),
       World (students w) (effects w ++ EvPanel (current_mode st) :: evs))
    /\ updates evs = [].
Proof.
  intros Hfc (d & total & branch & name & img & Hd & Ht & Hb & Hn & Hi).
  destruct st as [m c a s i]. simpl in *. subst s i.
  assert (E1 : (10 <? c)%nat = false) by (apply Nat.ltb_ge; lia).
  assert (E2 : (c <=? 10)%nat = true) by (apply Nat.leb_le; lia).
  assert (E3 : (20 <=? S c)%nat = false) by (apply Nat.leb_gt; lia).
  unfold display, render, bind, getitem, emit, ret.
  cbn -[Nat.leb Nat.ltb]. rewrite E1. cbn -[Nat.leb Nat.ltb].
  rewrite E2, Ht, Hb, Hn, E3. cbn -[Nat.leb Nat.ltb].
  eexists. rewrite <- !app_assoc. simpl. split; reflexivity.
Qed.

Lemma display_late (st : locals) (w : world) :
  (10 < frame_counter st < 19)%nat ->
  display st w
  = (Ok (with_stage 2 (S (frame_counter st)) st),
     World (students w) (effects w ++ [EvPanel 2])).
Proof.
  intros Hfc. destruct st as [m c a s i]. simpl in *.
  assert (E1 : (10 <? c)%nat = true) by (apply Nat.ltb_lt; lia).
  assert (E2 : (c <? 20)%nat = true) by (apply Nat.ltb_lt; lia).
  assert (E3 : (c <=? 10)%nat = false) by (apply Nat.leb_gt; lia).
  assert (E4 : (20 <=? S c)%nat = false) by (apply Nat.leb_gt; lia).
  unfold display, bind, emit, ret.
  cbn -[Nat.leb Nat.ltb]. rewrite E1, E2. cbn -[Nat.leb Nat.ltb].
  rewrite E3, E4. reflexivity.
Qed.

Lemma display_reset (st : locals) (w : world) :
  frame_counter st = 19%nat ->
  display st w
  = (Ok (Locals 0 0 (active_id st) None None),
     World (students w) (effects w ++ [EvPanel 2; EvPanel 0])).
Proof.
  intros Hfc. destruct st as [m c a s i]. simpl in *. subst c.
  unfold display, bind, emit, ret. simpl.
  rewrite <- app_assoc. reflexivity.
Qed.

(** *** Marks *)

Lemma bind_ok {A B} (m : M A) (k : A -> M B) (w w' : world) (a : A) :
  m w = (Ok a, w') -> bind m k w = k a w'.
Proof. intros H. unfold bind. rewrite H. reflexivity. Qed.

Lemma after_loop_first_match
    (cfg : config) (fs : list face) (st : locals) (id : string) :
  frame_counter st = 0%nat ->
  last (matched_ids cfg fs) = Some id ->
  after_loop cfg fs st = with_stage 1 1 (with_id id st).
Proof. intros Hfc Hlast. unfold after_loop. rewrite Hlast, Hfc. reflexivity. Qed.

Lemma matched_faces_detected (cfg : config) (fs : list face) (id : string) :
  last (matched_ids cfg fs) = Some id -> fs <> [].
Proof. intros Hlast ->. discriminate. Qed.


(** C2.  When the loop is not drawing a record, the last face that passes
    the match check has a record in the store and a local picture, and the
    timestamp of the cached record is at most the cooldown of 30 seconds
    old when the gate reads the clock, the iteration completes without any
    store update, leaves the store as it was and ends with mode 3 (the
    panel for a mark already made) and counter 0. *)
Theorem refused_mark
    (cfg : config) (fr : frame) (st : locals) (w : world)
    (id s : string) (d0 : dict) (last_time : Z) :
  frame_counter st = 0%nat ->
  Forall (face_ok cfg) (faces fr) ->
  last (matched_ids cfg (faces fr)) = Some id ->
  students w !! id = Some d0 ->
  d0 <> ∅ ->
  id ∈ image_files cfg ->
  fill_defaults id d0 !! "last_attendance_time" = Some (VStr s) ->
  strptime s = Some last_time ->
  now_gate fr - last_time <= cooldown_default * 1000000 ->
  exists st' w' evs,
    tick cfg fr st w = (Ok st', w')
    /\ students w' = students w
    /\ effects w' = effects w ++ evs
    /\ updates evs = []
    /\ current_mode st' = 3%nat
    /\ frame_counter st' = 0%nat
    /\ active_id st' = Some id.
Proof.
  intros Hfc Hok Hlast Hrec Hne Himg Hs Hparse Hrecent.
  pose proof (matched_faces_detected cfg _ id Hlast) as Hfaces.
  rewrite (tick_detected cfg fr st w Hfaces Hok),
    (after_loop_first_match cfg _ st id Hfc Hlast).
  set (w1 := World _ _).
  unfold after_faces. cbn [frame_counter with_stage Nat.eqb].
  erewrite bind_ok.
  2: { rewrite (identify_gate cfg fr _ w1 id d0);
         [|reflexivity|exact Hrec|exact Hne|exact Himg].
       apply (gate_refuse fr _ _ id s _ last_time Hs Hparse Hrecent). }
  unfold bind, emit, ret. simpl.
  eexists _, _, _. split; [reflexivity|]. simpl.
  split; [reflexivity|].
  split; [rewrite <- !app_assoc; simpl; reflexivity|].
  split; [count_updates; reflexivity|].
  repeat split.
Qed.

Lemma tick_unknown
    (cfg : config) (fr : frame) (st : locals) (w : world) (id : string) :
  (frame_counter st <= 1)%nat ->
  Forall (face_ok cfg) (faces fr) ->
  last (matched_ids cfg (faces fr)) = Some id ->
  students w !! id = None ->
  tick cfg fr st w
  = (Ok (Locals 0 0 (Some id) None (active_student_img st)),
     World (students w)
       (effects w ++ EvPanel (current_mode st)
          :: loop_effects cfg (faces fr) st ++ [EvGet id; EvNoRecord id])).
Proof.
  intros Hfc Hok Hlast Habsent.
  pose proof (matched_faces_detected cfg _ id Hlast) as Hfaces.
  rewrite (tick_detected cfg fr st w Hfaces Hok).
  set (w1 := World _ _).
  assert (Hloop : exists m, after_loop cfg (faces fr) st
                  = Locals m 1 (Some id) (active_student st)
                      (active_student_img st)).
  { unfold after_loop. rewrite Hlast. destruct st as [m [|c] a s i]; simpl.
    - eauto.
    - simpl in Hfc. assert (c = 0%nat) as -> by lia. eauto. }
  destruct Hloop as [m ->].
  unfold after_faces. cbn [frame_counter Nat.eqb].
  erewrite bind_ok.
  2: { apply (identify_absent cfg fr _ w1 id); [reflexivity|exact Habsent]. }
  unfold ret, w1. simpl. rewrite <- app_assoc. reflexivity.
Qed.

(** *** Computations that do not write *)

Lemma no_writes_ret {A} (a : A) : no_writes (ret a).
Proof. intros w. split; [reflexivity|]. exists []. simpl. rewrite app_nil_r. auto. Qed.

Lemma no_writes_raise {A} (e : exn) : no_writes (@raise A e).
Proof. intros w. split; [reflexivity|]. exists []. simpl. rewrite app_nil_r. auto. Qed.

Lemma no_writes_bind {A B} (m : M A) (k : A -> M B) :
  no_writes m -> (forall a, no_writes (k a)) -> no_writes (bind m k).
Proof.
  intros Hm Hk w. unfold bind. destruct (Hm w) as (Hs1 & evs1 & H1 & Hu1).
  destruct (m w) as [[a|e] w1]; simpl in *.
  - destruct (Hk a w1) as (Hs2 & evs2 & H2 & Hu2).
    split; [congruence|]. exists (evs1 ++ evs2).
    rewrite H2, H1, <- app_assoc. split; [reflexivity|].
    rewrite updates_app, Hu1, Hu2. reflexivity.
  - split; [exact Hs1|]. exists evs1. auto.
Qed.

Lemma no_writes_emit (e : event) : updates [e] = [] -> no_writes (emit e).
Proof. intros He w. split; [reflexivity|]. exists [e]. auto. Qed.

Lemma no_writes_getitem (d : dict) (k : string) : no_writes (getitem d k).
Proof.
  unfold getitem. destruct (d !! k); [apply no_writes_ret | apply no_writes_raise].
Qed.

Ltac read_only :=
  repeat first
    [ apply no_writes_bind; [|intros ?]
    | apply no_writes_emit; reflexivity
    | apply no_writes_ret
    | apply no_writes_raise
    | apply no_writes_getitem
    | case_match ].

Lemma no_writes_display (st : locals) : no_writes (display st).
Proof. unfold display, render. read_only. Qed.

Lemma tick_unknown_no_write
    (cfg : config) (fr : frame) (st : locals) (w : world) (id : string) :
  Forall (face_ok cfg) (faces fr) ->
  last (matched_ids cfg (faces fr)) = Some id ->
  students w !! id = None ->
  students (tick cfg fr st w).2 = students w
  /\ exists evs, effects (tick cfg fr st w).2 = effects w ++ evs
       /\ updates evs = [].
Proof.
  intros Hok Hlast Habsent.
  pose proof (matched_faces_detected cfg _ id Hlast) as Hfaces.
  rewrite (tick_detected cfg fr st w Hfaces Hok).
  set (w1 := World _ _). set (st1 := after_loop cfg (faces fr) st).
  assert (Hid : active_id st1 = Some id).
  { pose proof (after_loop_fields cfg (faces fr) st) as (_ & _ & Hid).
    rewrite Hlast in Hid. exact Hid. }
  assert (Hafter : students (after_faces cfg fr st1 w1).2 = students w1
            /\ exists evs, effects (after_faces cfg fr st1 w1).2
                           = effects w1 ++ evs /\ updates evs = []).
  { unfold after_faces. destruct (frame_counter st1 =? 1)%nat.
    - erewrite bind_ok
        by (apply (identify_absent cfg fr st1 w1 id Hid Habsent)).
      split; [reflexivity|]. exists [EvGet id; EvNoRecord id]. auto.
    - apply no_writes_bind; [apply no_writes_ret|]. intros [st2|st2].
      + apply no_writes_bind.
        * destruct (current_mode st2 =? 3)%nat;
            [apply no_writes_ret | apply no_writes_display].
        * intros st3. read_only.
      + apply no_writes_ret. }
  destruct Hafter as (Hstore & evs & Heff & Hupd).
  split; [exact Hstore|].
  exists (EvPanel (current_mode st) :: loop_effects cfg (faces fr) st ++ evs).
  rewrite Heff. unfold w1. simpl. rewrite <- app_assoc. split; [reflexivity|].
  count_updates. rewrite Hupd. reflexivity.
Qed.


(** *** Drawing a record over consecutive frames *)

Lemma tick_displaying
    (cfg : config) (fr : frame) (st : locals) (w : world) :
  displaying st ->
  detected cfg fr ->
  exists st' evs,
    tick cfg fr st w = (Ok st', World (students w) (effects w ++ evs))
    /\ updates evs = []
    /\ if (frame_counter st <? 19)%nat
       then displaying st'
            /\ frame_counter st' = S (frame_counter st)
            /\ active_student st' = active_student st
            /\ active_student_img st' = active_student_img st
       else st' = Locals 0 0 (active_id st') None None
            /\ exists evs0, evs = evs0 ++ [EvPanel 0; EvImshow].
Proof.
  intros (Hmode & Hfc & Hdraw) (Hfaces & Hok).
  rewrite (tick_detected cfg fr st w Hfaces Hok).
  set (w1 := World _ _). set (st1 := after_loop cfg (faces fr) st).
  pose proof (after_loop_fields cfg (faces fr) st) as (Hs1 & Hi1 & _).
  destruct (proj1 (after_loop_stage cfg (faces fr) st)) as [Hm1 Hc1];
    [left; lia|].
  fold st1 in Hs1, Hi1, Hm1, Hc1.
  assert (Hdraw1 : drawable st1).
  { destruct Hdraw as (d & t & b & nm & img & Hd & Ht & Hb & Hn & Himg).
    exists d, t, b, nm, img. rewrite Hs1, Hi1. auto. }
  unfold after_faces.
  replace (frame_counter st1 =? 1)%nat with false
    by (symmetry; apply Nat.eqb_neq; lia).
  unfold bind at 1, ret at 1. cbv beta iota.
  replace (current_mode st1 =? 3)%nat with false
    by (symmetry; apply Nat.eqb_neq; congruence).
  destruct (le_lt_dec (frame_counter st) 10) as [Hearly | Hlate].
  - destruct (display_draws st1 w1) as (evs & Hdisplay & Hupd);
      [lia | exact Hdraw1 |].
    erewrite bind_ok by exact Hdisplay.
    unfold bind, emit, ret. simpl.
    eexists _, _. split; [rewrite <- !app_assoc; simpl; reflexivity|].
    split; [count_updates; rewrite Hupd; reflexivity|].
    replace (frame_counter st <? 19)%nat with true
      by (symmetry; apply Nat.ltb_lt; lia).
    split; [|simpl; auto].
    split; [simpl; congruence|].
    split; [simpl; lia|].
    destruct Hdraw1 as (d & t & b & nm & img & Hd & Ht & Hb & Hn & Himg).
    exists d, t, b, nm, img. simpl. auto.
  - destruct (le_lt_dec 19 (frame_counter st)) as [Hend | Hmid].
    + erewrite bind_ok by (apply display_reset; lia).
      unfold bind, emit, ret. simpl.
      eexists _, _. split; [rewrite <- !app_assoc; simpl; reflexivity|].
      split; [count_updates; reflexivity|].
      replace (frame_counter st <? 19)%nat with false
        by (symmetry; apply Nat.ltb_ge; lia).
      split; [reflexivity|].
      exists (EvPanel (current_mode st) :: loop_effects cfg (faces fr) st
                ++ [EvPanel 2]).
      simpl. rewrite <- !app_assoc. reflexivity.
    + erewrite bind_ok by (apply display_late; lia).
      unfold bind, emit, ret. simpl.
      eexists _, _. split; [rewrite <- !app_assoc; simpl; reflexivity|].
      split; [count_updates; reflexivity|].
      replace (frame_counter st <? 19)%nat with true
        by (symmetry; apply Nat.ltb_lt; lia).
      split; [|simpl; auto].
      split; [simpl; discriminate|].
      split; [simpl; lia|].
      destruct Hdraw1 as (d & t & b & nm & img & Hd & Ht & Hb & Hn & Himg).
      exists d, t, b, nm, img. simpl. auto.
Qed.


(** *** The gate on a record that was never marked *)

(** C3, as the code has it.  A record without a timestamp gets the
    default ["2000-01-01 00:00:00"], which is an ordinary timestamp: the
    gate accepts it exactly when the clock is more than the cooldown past
    that instant.  What the gate accepts at every time is a value that
    [strptime] refuses, such as the ["N/A"] that the administration panel
    stores. *)
Theorem never_marked_gate
    (id : string) (d : dict) (v : value) (t0 cooldown now : Z) :
  d !! "last_attendance_time" = None ->
  strptime "2000-01-01 00:00:00" = Some t0 ->
  (forall s, v = VStr s -> strptime s = None) ->
  fill_defaults id d !! "last_attendance_time"
  = Some (VStr "2000-01-01 00:00:00")
  /\ (can_mark_attendance (VStr "2000-01-01 00:00:00") cooldown now = true
      <-> cooldown * 1000000 < now - t0)
  /\ can_mark_attendance v cooldown now = true.
Proof.
  intros Hmissing Hparse Hrefused. split; [|split].
  - unfold fill_defaults. rewrite !lookup_setdefault. simpl.
    rewrite Hmissing. reflexivity.
  - unfold can_mark_attendance. rewrite Hparse. apply Z.ltb_lt.
  - unfold can_mark_attendance. destruct v as [n|s]; [reflexivity|].
    rewrite (Hrefused s eq_refl). reflexivity.
Qed.

End Controller.

(** ** The calendar on examples *)

Example strptime_2000 :
  Calendar.strptime "2000-01-01 00:00:00" = Some 946684800000000.
Proof. vm_compute. reflexivity. Qed.

Example strftime_2000 :
  Calendar.strftime 946684805999999 = "2000-01-01 00:00:05".
Proof. vm_compute. reflexivity. Qed.

Example strptime_not_a_date : Calendar.strptime "N/A" = None.
Proof. vm_compute. reflexivity. Qed.

Example strptime_leap_day :
  Calendar.strftime 1709251199000000 = "2024-02-29 23:59:59"
  /\ Calendar.strptime "2024-02-29 23:59:59" = Some 1709251199000000
  /\ Calendar.strptime "2023-02-29 23:59:59" = None.
Proof. vm_compute. repeat split; reflexivity. Qed.


(** ** The scenario, evaluated *)

Abbreviation tick_at := (tick Calendar.strptime Calendar.strftime Scenario.cfg).
Abbreviation run_at := (run Calendar.strptime Calendar.strftime Scenario.cfg).

Lemma scenario_faces_ok (fs : list face) :
  Forall (fun f => f ∈ [Scenario.face_S001; Scenario.face_S002;
                        Scenario.face_S003; Scenario.face_stranger]) fs ->
  Forall (face_ok Scenario.cfg) fs.
Proof.
  intros Hfs. eapply Forall_impl; [exact Hfs|]. clear. intros f Hf. simpl in Hf.
  repeat (apply elem_of_cons in Hf as [-> | Hf]);
    [| | | |apply elem_of_nil in Hf; contradiction];
    (split; [discriminate|split; reflexivity]).
Qed.

Lemma record_S001_non_empty : Scenario.record_S001 <> ∅.
Proof. apply insert_non_empty. Qed.



(** S001 is matched five seconds after the last mark. *)
Lemma refused_mark_witness :
  exists st' w',
    tick_at (Scenario.frame_at [Scenario.face_S001] "2024-03-01 09:00:05")
      initial Scenario.world0 = (Ok st', w')
    /\ students w' = Scenario.store
    /\ current_mode st' = 3%nat
    /\ frame_counter st' = 0%nat.
Proof.
  destruct (refused_mark Calendar.strptime Calendar.strftime Scenario.cfg
              (Scenario.frame_at [Scenario.face_S001] "2024-03-01 09:00:05")
              initial Scenario.world0 "S001" "2024-03-01 09:00:00"
              Scenario.record_S001 (Scenario.at_time "2024-03-01 09:00:00"))
    as (st' & w' & evs & Htick & Hstore & _ & _ & Hm & Hc & _).
  - reflexivity.
  - apply scenario_faces_ok. repeat constructor.
  - reflexivity.
  - reflexivity.
  - exact record_S001_non_empty.
  - vm_compute. set_solver.
  - reflexivity.
  - reflexivity.
  - vm_compute. discriminate.
  - exists st', w'. auto.
Defined.

(** The record of S002 has no timestamp; the clock reads 2024. *)
Lemma never_marked_gate_witness :
  fill_defaults "S002" Scenario.record_S002 !! "last_attendance_time"
  = Some (VStr "2000-01-01 00:00:00")
  /\ (can_mark_attendance Calendar.strptime (VStr "2000-01-01 00:00:00") 30
        (Scenario.at_time "2024-03-01 09:00:00") = true
      <-> 30 * 1000000
          < Scenario.at_time "2024-03-01 09:00:00"
            - Scenario.at_time "2000-01-01 00:00:00")
  /\ can_mark_attendance Calendar.strptime (VStr "N/A") 30
       (Scenario.at_time "2024-03-01 09:00:00") = true.
Proof.
  apply (never_marked_gate Calendar.strptime "S002" Scenario.record_S002
           (VStr "N/A") (Scenario.at_time "2000-01-01 00:00:00")).
  - reflexivity.
  - reflexivity.
  - intros s [= <-]. reflexivity.
Defined.

(** The claim of C3 fails on a clock that reads ten seconds past the start
    of the year 2000 (a clock that was never set): the gate refuses the
    default timestamp of a record that was never marked. *)
Lemma never_marked_refused_on_unset_clock :
  fill_defaults "S002" Scenario.record_S002 !! "last_attendance_time"
  = Some (VStr "2000-01-01 00:00:00")
  /\ can_mark_attendance Calendar.strptime (VStr "2000-01-01 00:00:00")
       cooldown_default (Scenario.at_time "2000-01-01 00:00:10") = false
  /\ ~ (forall now,
          can_mark_attendance Calendar.strptime (VStr "2000-01-01 00:00:00")
            cooldown_default now = true).
Proof.
  split; [reflexivity|]. split; [reflexivity|].
  intros H. specialize (H (Scenario.at_time "2000-01-01 00:00:10")).
  vm_compute in H. discriminate.
Qed.


(** After a refused mark of S001, a stranger is in the frame. *)
Lemma after_refusal_witness :
  tick_at (Scenario.frame_at [Scenario.face_stranger] "2024-03-01 09:00:06")
    Scenario.refused_S001 Scenario.world0
  = (Ok Scenario.refused_S001, World Scenario.store [EvPanel 3; EvImshow]).
Proof.
  destruct (after_refusal Calendar.strptime Calendar.strftime Scenario.cfg
              (Scenario.frame_at [Scenario.face_stranger] "2024-03-01 09:00:06")
              Scenario.refused_S001 Scenario.world0)
    as (_ & Hstay & _).
  - reflexivity.
  - reflexivity.
  - apply scenario_faces_ok. repeat constructor.
  - apply Hstay; [discriminate|]. repeat constructor.
Defined.

(** The claim of C5 fails when a face stays in the frame: S001 is refused
    in the first frame, a stranger is in the next two, and the loop is still
    in the stage of the refusal (mode 3, counter 0) after each of them. *)
Lemma refusal_lasts_while_a_face_is_detected :
  exists st1 w1 st2 w2 st3 w3,
    tick_at (Scenario.frame_at [Scenario.face_S001] "2024-03-01 09:00:05")
      initial Scenario.world0 = (Ok st1, w1)
    /\ tick_at (Scenario.frame_at [Scenario.face_stranger] "2024-03-01 09:00:06")
         st1 w1 = (Ok st2, w2)
    /\ tick_at (Scenario.frame_at [Scenario.face_stranger] "2024-03-01 09:00:07")
         st2 w2 = (Ok st3, w3)
    /\ (current_mode st1, frame_counter st1) = (3%nat, 0%nat)
    /\ (current_mode st2, frame_counter st2) = (3%nat, 0%nat)
    /\ (current_mode st3, frame_counter st3) = (3%nat, 0%nat)
    /\ current_mode st2 <> current_mode initial.
Proof.
  eexists _, _, _, _, _, _.
  split; [vm_compute; reflexivity|].
  split; [vm_compute; reflexivity|].
  split; [vm_compute; reflexivity|].
  repeat split. discriminate.
Qed.

Lemma drawing_S001_displaying : displaying Scenario.drawing_S001.
Proof.
  split; [discriminate|]. split; [simpl; lia|].
  eexists _, (VInt 5), (VStr "CS"), "Ann", "S001".
  repeat split; reflexivity.
Qed.



(** A frame without a face while the record of S001 is being drawn. *)
Lemma no_face_resets_stage_only_witness :
  exists st' w',
    tick_at (Scenario.frame_at [] "2024-03-01 09:05:06")
      Scenario.drawing_S001 Scenario.world0 = (Ok st', w')
    /\ current_mode st' = 0%nat
    /\ frame_counter st' = 0%nat
    /\ active_id st' = Some "S001"
    /\ active_student st' = active_student Scenario.drawing_S001.
Proof.
  destruct (no_face_resets_stage_only Calendar.strptime Calendar.strftime
              Scenario.cfg (Scenario.frame_at [] "2024-03-01 09:05:06")
              Scenario.drawing_S001 Scenario.world0)
    as (st' & w' & Htick & Hm & Hc & Hid & Hs & _).
  - reflexivity.
  - exists st', w'. auto.
Defined.

(** The claim of C7 fails on the subject and on the cached record: S001 is
    marked, then the frame is empty, and the locals still hold the id and
    the record, which differ from their initial values. *)
Lemma no_face_keeps_subject_and_record :
  exists st1 w1 st2 w2,
    tick_at (Scenario.frame_at [Scenario.face_S001] "2024-03-01 09:05:05")
      initial Scenario.world0 = (Ok st1, w1)
    /\ tick_at (Scenario.frame_at [] "2024-03-01 09:05:06") st1 w1 = (Ok st2, w2)
    /\ active_id st2 = Some "S001"
    /\ active_id st2 <> active_id initial
    /\ active_student st2 <> active_student initial
    /\ active_student_img st2 <> active_student_img initial.
Proof.
  eexists _, _, _, _.
  split; [vm_compute; reflexivity|].
  split; [vm_compute; reflexivity|].
  repeat split; vm_compute; discriminate.
Qed.

(** The face closest to S002, whose flag is set. *)
Lemma best_match_min_then_flag_witness :
  best_match Scenario.face_S002 Scenario.world0 = (Ok (Some 1%nat), Scenario.world0)
  /\ is_argmin (distances Scenario.face_S002) 1.
Proof.
  destruct (best_match_min_then_flag Scenario.face_S002 Scenario.world0)
    as (i & m & Harg & Hm & Hbest & _).
  - discriminate.
  - reflexivity.
  - assert (Hi : i = 1%nat).
    { destruct Harg as (d & Hd & Hle & Hlt).
      destruct i as [|[|[|i]]]; try discriminate Hd; [|reflexivity|].
      - injection Hd as <-. specialize (Hle 1%nat _ eq_refl).
        vm_compute in Hle. contradiction.
      - injection Hd as <-. specialize (Hle 1%nat _ eq_refl).
        vm_compute in Hle. contradiction. }
    subst i. injection Hm as <-. split; [exact Hbest|exact Harg].
Defined.

(** S001 and S002 are both in the frame, S002 last. *)
Lemma last_matched_face_wins_witness :
  exists st' w',
    tick_at (Scenario.frame_at
               [Scenario.face_S001; Scenario.face_stranger; Scenario.face_S002]
               "2024-03-01 09:05:05")
      initial Scenario.world0 = (Ok st', w')
    /\ active_id st' = Some "S002"
    /\ boxes (effects w') = [(255, 242, 160, 160); (495, 262, 160, 160)].
Proof.
  destruct (last_matched_face_wins Calendar.strptime Calendar.strftime
              Scenario.cfg
              (Scenario.frame_at
                 [Scenario.face_S001; Scenario.face_stranger; Scenario.face_S002]
                 "2024-03-01 09:05:05")
              initial Scenario.world0)
    as (id & Hlast & _ & _ & Htick).
  - apply scenario_faces_ok. repeat constructor.
  - vm_compute. lia.
  - injection Hlast as <-.
    eexists _, _. split; [vm_compute; reflexivity|].
    split; [|vm_compute; reflexivity].
    eapply Htick. vm_compute. reflexivity.
Defined.

(** The first frame shows a stranger. *)
Lemma unmatched_face_at_start_raises_witness :
  tick_at (Scenario.frame_at [Scenario.face_stranger] "2024-03-01 09:05:05")
    initial Scenario.world0
  = (Raised TypeError, World Scenario.store [EvPanel 0; EvPanel 0]).
Proof.
  apply (unmatched_face_at_start_raises Calendar.strptime Calendar.strftime
           Scenario.cfg
           (Scenario.frame_at [Scenario.face_stranger] "2024-03-01 09:05:05")
           Scenario.world0).
  - discriminate.
  - apply scenario_faces_ok. repeat constructor.
  - repeat constructor.
Defined.

(** A run the claims do not cover: S001 is marked and leaves, and a minute
    later a stranger stands in front of the camera.  The first frame with
    the stranger draws the record that is still cached and takes the counter
    to 1; the second one runs the identification for the id that is still
    active, and S001 is marked again. *)
Example stranger_marks_the_previous_subject :
  exists st' w' r,
    run_at [Scenario.frame_at [Scenario.face_S001] "2024-03-01 09:05:05";
            Scenario.frame_at [] "2024-03-01 09:05:06";
            Scenario.frame_at [Scenario.face_stranger] "2024-03-01 09:06:10";
            Scenario.frame_at [Scenario.face_stranger] "2024-03-01 09:06:11"]
      initial Scenario.world0 = (Ok st', w')
    /\ length (updates (effects w')) = 2%nat
    /\ students w' !! "S001" = Some r
    /\ r !! "total_attendance" = Some (VInt 6)
    /\ r !! "last_attendance_time" = Some (VStr "2024-03-01 09:06:11").
Proof.
  eexists _, _, _.
  split; [vm_compute; reflexivity|].
  split; [vm_compute; reflexivity|].
  split; [vm_compute; reflexivity|].
  split; vm_compute; reflexivity.
Qed.
